(** * uszipcode: the compressed JSON column type and the zipcode record

    A shallow embedding of [uszipcode/model.py]:
    - [CompressedJSONType], the column type that stores a JSON value as
      zlib-compressed UTF-8 text ([process_bind_param],
      [process_result_value]);
    - [AbstractSimpleZipcode], the record with its derived properties
      ([state_abbr], [state_long]) and its comparison protocol
      ([__lt__], [__eq__], [__hash__], completed by
      [functools.total_ordering]).

    Python values that may be [None] are modelled with [option]; a call
    that may raise returns a [result]. *)

From Stdlib Require Import ZArith NArith List Lia Bool.
From Stdlib Require Import Floats.SpecFloat.
From Stdlib Require Import Strings.String Strings.Ascii DecimalString.
From Stdlib Require Import Reals Lra.
From stdpp Require Import base option list countable gmap.

Set Default Proof Using "Type".
Set Warnings "-register-all".

Local Open Scope N_scope.

(** ** Exceptions and results *)

(** The exception classes that the modelled code can raise. [LibError]
    stands for whatever a plugged-in serializer or compressor raises. *)
Inductive exn : Type :=
| ValueError
| TypeError
| AttributeError
| UnicodeEncodeError
| UnicodeDecodeError
| LibError.

Inductive result (A : Type) : Type :=
| Ok (a : A)
| Raise (e : exn).

Arguments Ok {A} a.
Arguments Raise {A} e.

#[global] Instance result_ret : MRet result := fun A a => Ok a.
#[global] Instance result_bind : MBind result := fun A B f m =>
  match m with
  | Ok a => f a
  | Raise e => Raise e
  end.

Definition returns {A} (m : result A) : Prop := ∃ a, m = Ok a.
Definition raises {A} (m : result A) : Prop := ∃ e, m = Raise e.

(** ** Python [str] and [bytes] *)

(** A [str] is a sequence of code points, a [bytes] a sequence of octets. *)
Definition str := list N.
Definition bytes := list N.

(** A code point that is not a surrogate: what UTF-8 can carry. *)
Definition unicode_scalar (c : N) : Prop :=
  c < 0xD800 ∨ (0xE000 ≤ c ∧ c < 0x110000).

(** [str.encode("utf-8")] on one code point. Surrogates are refused
    ("surrogates not allowed"). *)
Definition utf8_encode_cp (c : N) : option bytes :=
  if c <? 0x80 then Some [c]
  else if c <? 0x800 then
    Some [0xC0 + c / 64; 0x80 + c mod 64]
  else if c <? 0x10000 then
    if (0xD800 <=? c) && (c <? 0xE000) then None
    else Some [0xE0 + c / 4096; 0x80 + (c / 64) mod 64; 0x80 + c mod 64]
  else if c <? 0x110000 then
    Some [0xF0 + c / 262144; 0x80 + (c / 4096) mod 64;
          0x80 + (c / 64) mod 64; 0x80 + c mod 64]
  else None.

Fixpoint utf8_encode (s : str) : result bytes :=
  match s with
  | [] => Ok []
  | c :: s' =>
      match utf8_encode_cp c with
      | None => Raise UnicodeEncodeError
      | Some bs =>
          match utf8_encode s' with
          | Ok rest => Ok (bs ++ rest)
          | Raise e => Raise e
          end
      end
  end.

(** A continuation octet, [10xxxxxx]. *)
Definition is_cont (b : N) : bool := (0x80 <=? b) && (b <? 0xC0).

(** [bytes.decode("utf-8")], strict: overlong forms, surrogates, code
    points above U+10FFFF and truncated sequences are refused. *)
Fixpoint utf8_decode (bs : bytes) : result str :=
  match bs with
  | [] => Ok []
  | b0 :: t0 =>
      if b0 <? 0x80 then
        match utf8_decode t0 with
        | Ok s => Ok (b0 :: s)
        | Raise e => Raise e
        end
      else if (0xC2 <=? b0) && (b0 <? 0xE0) then
        match t0 with
        | b1 :: t1 =>
            if is_cont b1 then
              match utf8_decode t1 with
              | Ok s => Ok (((b0 - 0xC0) * 64 + (b1 - 0x80)) :: s)
              | Raise e => Raise e
              end
            else Raise UnicodeDecodeError
        | _ => Raise UnicodeDecodeError
        end
      else if (0xE0 <=? b0) && (b0 <? 0xF0) then
        match t0 with
        | b1 :: b2 :: t2 =>
            let c := (b0 - 0xE0) * 4096 + (b1 - 0x80) * 64 + (b2 - 0x80) in
            if is_cont b1 && is_cont b2 && (0x800 <=? c)
               && negb ((0xD800 <=? c) && (c <? 0xE000)) then
              match utf8_decode t2 with
              | Ok s => Ok (c :: s)
              | Raise e => Raise e
              end
            else Raise UnicodeDecodeError
        | _ => Raise UnicodeDecodeError
        end
      else if (0xF0 <=? b0) && (b0 <? 0xF5) then
        match t0 with
        | b1 :: b2 :: b3 :: t3 =>
            let c := (b0 - 0xF0) * 262144 + (b1 - 0x80) * 4096
                     + (b2 - 0x80) * 64 + (b3 - 0x80) in
            if is_cont b1 && is_cont b2 && is_cont b3
               && (0x10000 <=? c) && (c <? 0x110000) then
              match utf8_decode t3 with
              | Ok s => Ok (c :: s)
              | Raise e => Raise e
              end
            else Raise UnicodeDecodeError
        | _ => Raise UnicodeDecodeError
        end
      else Raise UnicodeDecodeError
  end.

(** ** Python values *)

Definition float := spec_float.

(** The values a JSON column can hold, and what a serializer can return. *)
Inductive pyval : Type :=
| PNone
| PBool (b : bool)
| PInt (z : Z)
| PFloat (f : float)
| PStr (s : str)
| PBytes (b : bytes)
| PList (l : list pyval)
| PDict (d : list (str * pyval)).

(** [o.encode("utf-8")]: only a [str] has the method. *)
Definition encode_utf8 (o : pyval) : result bytes :=
  match o with
  | PStr s => utf8_encode s
  | _ => Raise AttributeError
  end.

(** ** Collaborators of the column type *)

(** The [json_lib] interface: [dumps] takes an object and returns a JSON
    string, [loads] takes a string and returns the object. *)
Class JsonLib := {
  dumps : pyval → result pyval;
  loads : str → result pyval
}.

(** The [zlib] module. *)
Class Zlib := {
  compress : bytes → bytes;
  decompress : bytes → result bytes
}.

Definition ZlibLossless `{Zlib} : Prop :=
  ∀ b, decompress (compress b) = Ok b.

(** ** CompressedJSONType *)

Module CompressedJSONType.
Section methods.
Context `{JsonLib} `{Zlib}.

Definition process_bind_param (value : pyval) : result (option bytes) :=
  match value with
  | PNone => Ok None
  | _ =>
      text ← dumps value;
      raw ← encode_utf8 text;
      Ok (Some (compress raw))
  end.

Definition process_result_value (value : option bytes) : result pyval :=
  match value with
  | None => Ok PNone
  | Some blob =>
      raw ← decompress blob;
      text ← utf8_decode raw;
      loads text
  end.

(** A value written to the column and read back. *)
Definition store_then_load (value : pyval) : result pyval :=
  process_bind_param value ≫= process_result_value.

(** [value] is serializable: the serialization step of
    [process_bind_param], [dumps(value).encode("utf-8")], yields octets. *)
Definition serializable (value : pyval) : Prop :=
  ∃ text, dumps value = Ok text ∧ returns (encode_utf8 text).

(** The serializer law [loads(dumps(value)) == value]. *)
Definition loads_dumps (value : pyval) : Prop :=
  ∃ s, dumps value = Ok (PStr s) ∧ loads s = Ok value.
End methods.

(** The keyword that carries the serializer: ["json_lib"]. *)
Definition _JSON_LIB : list N := [106; 115; 111; 110; 95; 108; 105; 98].

(** [__init__]: the serializer is popped from the keyword arguments when
    it is there, and is the module [json] otherwise. The result is
    [self.json_lib] with the arguments handed to [super().__init__]. *)
Definition __init__ {Obj : Type} (json : Obj)
    (args : list Obj) (kwargs : gmap (list N) Obj)
  : Obj * (list Obj * gmap (list N) Obj) :=
  match kwargs !! _JSON_LIB with
  | Some lib => (lib, (args, delete _JSON_LIB kwargs))
  | None => (json, (args, kwargs))
  end.
End CompressedJSONType.

(** ** Builtins used by the record *)

(** [a == b] on two [str]. *)
Fixpoint str_eqb (a b : str) : bool :=
  match a, b with
  | [], [] => true
  | x :: a', y :: b' => (x =? y) && str_eqb a' b'
  | _, _ => false
  end.

(** [a < b] on two [str]: the first differing code point decides, and a
    proper prefix is smaller. *)
Fixpoint str_lt (a b : str) : bool :=
  match a, b with
  | _, [] => false
  | [], _ :: _ => true
  | x :: a', y :: b' =>
      if x <? y then true
      else if y <? x then false
      else str_lt a' b'
  end.

(** [a == b] where each side is [None] or a [str]. *)
Definition obj_eqb (a b : option str) : bool :=
  match a, b with
  | None, None => true
  | Some x, Some y => str_eqb x y
  | _, _ => false
  end.

(** [hash] and [str.upper] are the interpreter's. *)
Class Builtins := {
  hash : option str → Z;
  upper : str → str
}.

(** The module [state_abbr], imported by the model: state code to name. *)
Class StateAbbr := {
  MAPPER_STATE_ABBR_SHORT_TO_LONG : gmap (list N) str
}.

(** ** AbstractSimpleZipcode *)

Record AbstractSimpleZipcode : Type := {
  zipcode : option str;
  zipcode_type : option str;
  major_city : option str;
  post_office_city : option str;
  common_city_list : pyval;
  county : option str;
  state : option str;
  lat : option float;
  lng : option float;
  timezone : option str;
  radius_in_miles : option float;
  area_code_list : pyval;
  population : option Z;
  population_density : option float;
  land_area_in_sqmi : option float;
  water_area_in_sqmi : option float;
  housing_units : option Z;
  occupied_housing_units : option Z;
  median_home_value : option Z;
  median_household_income : option Z;
  bounds_west : option float;
  bounds_east : option float;
  bounds_north : option float;
  bounds_south : option float
}.

Definition city (self : AbstractSimpleZipcode) : option str :=
  major_city self.

(** [self.state.upper()]: [None] has no attribute [upper]. *)
Definition state_upper `{Builtins} (self : AbstractSimpleZipcode) : result str :=
  match state self with
  | Some s => Ok (upper s)
  | None => Raise AttributeError
  end.

Definition state_abbr `{Builtins} (self : AbstractSimpleZipcode) : result str :=
  state_upper self.

(** [dict.get] returns [None] for a missing key. *)
Definition state_long `{Builtins} `{StateAbbr}
    (self : AbstractSimpleZipcode) : result (option str) :=
  key ← state_upper self;
  Ok (MAPPER_STATE_ABBR_SHORT_TO_LONG !! key).

Definition __bool__ (self : AbstractSimpleZipcode) : bool :=
  match zipcode self with
  | Some _ => true
  | None => false
  end.

Definition __lt__ (self other : AbstractSimpleZipcode) : result bool :=
  match zipcode self, zipcode other with
  | Some a, Some b => Ok (str_lt a b)
  | _, _ => Raise ValueError
  end.

Definition __eq__ (self other : AbstractSimpleZipcode) : result bool :=
  Ok (obj_eqb (zipcode self) (zipcode other)).

Definition __hash__ `{Builtins} (self : AbstractSimpleZipcode) : Z :=
  hash (zipcode self).

(** [object.__ne__]: the inverse of [__eq__]. *)
Definition __ne__ (self other : AbstractSimpleZipcode) : result bool :=
  r ← __eq__ self other;
  Ok (negb r).

(** The three methods [functools.total_ordering] derives from [__lt__]:
    [_le_from_lt], [_gt_from_lt] and [_ge_from_lt]. Each calls [__lt__]
    first; [or] and [and] evaluate their right operand only when needed. *)
Definition __le__ (self other : AbstractSimpleZipcode) : result bool :=
  op_result ← __lt__ self other;
  if op_result : bool then Ok true else __eq__ self other.

Definition __gt__ (self other : AbstractSimpleZipcode) : result bool :=
  op_result ← __lt__ self other;
  if negb op_result then __ne__ self other else Ok false.

Definition __ge__ (self other : AbstractSimpleZipcode) : result bool :=
  op_result ← __lt__ self other;
  Ok (negb op_result).

(** The six comparison operators. *)
Inductive cmp_op : Type :=
| Py_LT | Py_LE | Py_EQ | Py_NE | Py_GT | Py_GE.

Definition richcompare (op : cmp_op)
    (self other : AbstractSimpleZipcode) : result bool :=
  match op with
  | Py_LT => __lt__ self other
  | Py_LE => __le__ self other
  | Py_EQ => __eq__ self other
  | Py_NE => __ne__ self other
  | Py_GT => __gt__ self other
  | Py_GE => __ge__ self other
  end.

Definition is_ordering (op : cmp_op) : bool :=
  match op with
  | Py_EQ | Py_NE => false
  | _ => true
  end.

(** Lexicographic order on strings, as a relation: [a] runs out first, or
    the first code point where they differ is smaller in [a]. *)
Inductive lex_lt : str → str → Prop :=
| lex_lt_prefix y b : lex_lt [] (y :: b)
| lex_lt_head x y a b : x < y → lex_lt (x :: a) (y :: b)
| lex_lt_tail x a b : lex_lt a b → lex_lt (x :: a) (x :: b).

(** ** Concrete collaborators and records for the closed examples *)

(** The code points of an ASCII literal. *)
Definition pystr (s : string) : str :=
  map N_of_ascii (list_ascii_of_string s).

Definition ascii_text (s : str) : option string :=
  if forallb (λ c, c <? 128) s
  then Some (string_of_list_ascii (map ascii_of_N s))
  else None.

Definition quote : N := 34.
Definition backslash : N := 92.

Definition plain_char (c : N) : bool :=
  (32 <=? c) && negb (c =? quote) && negb (c =? backslash).

(** A small serializer with the [json_lib] interface: the literals,
    integers, and strings that need no escape (written as they are, as
    [ensure_ascii=False] does). Anything else is a [TypeError]. *)
Definition mini_dumps (v : pyval) : result pyval :=
  match v with
  | PNone => Ok (PStr (pystr "null"))
  | PBool true => Ok (PStr (pystr "true"))
  | PBool false => Ok (PStr (pystr "false"))
  | PInt z => Ok (PStr (pystr (NilZero.string_of_int (Z.to_int z))))
  | PStr s =>
      if forallb plain_char s then Ok (PStr (quote :: s ++ [quote]))
      else Raise TypeError
  | _ => Raise TypeError
  end.

Definition mini_loads (s : str) : result pyval :=
  if str_eqb s (pystr "null") then Ok PNone
  else if str_eqb s (pystr "true") then Ok (PBool true)
  else if str_eqb s (pystr "false") then Ok (PBool false)
  else
    match s with
    | 34 :: body =>
        match rev body with
        | 34 :: ydob =>
            if forallb plain_char ydob then Ok (PStr (rev ydob))
            else Raise ValueError
        | _ => Raise ValueError
        end
    | _ =>
        match ascii_text s ≫= NilZero.int_of_string with
        | Some i => Ok (PInt (Z.of_int i))
        | None => Raise ValueError
        end
    end.

Definition mini_json : JsonLib :=
  {| dumps := mini_dumps; loads := mini_loads |}.

(** A lossless stand-in for [zlib]: a two-octet header, then the payload. *)
Definition framed_zlib : Zlib :=
  {| compress := λ b, 0x78 :: 0x9C :: b;
     decompress := λ b,
       match b with
       | 0x78 :: 0x9C :: payload => Ok payload
       | _ => Raise LibError
       end |}.

Definition ascii_upper (c : N) : N :=
  if (97 <=? c) && (c <=? 122) then c - 32 else c.

Definition toy_builtins : Builtins :=
  {| hash := λ o,
       match o with
       | None => 0%Z
       | Some s => Z.of_N (fold_left (λ h c, (31 * h + c) mod 2 ^ 61) s 7)
       end;
     upper := map ascii_upper |}.

Definition two_states : StateAbbr :=
  {| MAPPER_STATE_ABBR_SHORT_TO_LONG :=
       <[pystr "NY" := pystr "New York"]>
         (<[pystr "CA" := pystr "California"]> ∅) |}.

(** A record with every column [NULL]: what a failed lookup returns. *)
Definition empty_zipcode : AbstractSimpleZipcode :=
  {| zipcode := None; zipcode_type := None; major_city := None;
     post_office_city := None; common_city_list := PNone; county := None;
     state := None; lat := None; lng := None; timezone := None;
     radius_in_miles := None; area_code_list := PNone; population := None;
     population_density := None; land_area_in_sqmi := None;
     water_area_in_sqmi := None; housing_units := None;
     occupied_housing_units := None; median_home_value := None;
     median_household_income := None; bounds_west := None;
     bounds_east := None; bounds_north := None; bounds_south := None |}.

Definition sample (code : string) (town st : string) (pop : Z)
  : AbstractSimpleZipcode :=
  {| zipcode := Some (pystr code); zipcode_type := Some (pystr "STANDARD");
     major_city := Some (pystr town); post_office_city := None;
     common_city_list := PList [PStr (pystr town)]; county := None;
     state := Some (pystr st); lat := None; lng := None; timezone := None;
     radius_in_miles := None; area_code_list := PNone;
     population := Some pop;
     population_density := None; land_area_in_sqmi := None;
     water_area_in_sqmi := None; housing_units := None;
     occupied_housing_units := None; median_home_value := None;
     median_household_income := None; bounds_west := None;
     bounds_east := None; bounds_north := None; bounds_south := None |}.

Definition ny_10001 := sample "10001" "New York" "ny" 21102.
Definition ny_10001_stale := sample "10001" "Manhattan" "NY" 0.
Definition ca_94105 := sample "94105" "San Francisco" "Ca" 5846.
Definition pr_00601 := sample "00601" "Adjuntas" "pr" 18570.

(** A serializer whose [dumps] returns [bytes], as some drop-in JSON
    libraries do. *)
Definition bytes_json : JsonLib :=
  {| dumps := λ v,
       text ← mini_dumps v;
       raw ← encode_utf8 text;
       Ok (PBytes raw);
     loads := mini_loads |}.

(** A reader that is not the writer's serializer: it hands back the
    stored text as a string. *)
Definition text_lib : JsonLib :=
  {| dumps := λ v,
       match v with
       | PStr s => Ok (PStr s)
       | _ => Raise TypeError
       end;
     loads := λ s, Ok (PStr s) |}.

(** ** Distance *)

(** The units of the distance: miles or kilometers. *)
Inductive Unit : Type :=
| KILOMETERS
| MILES.

(** Earth's mean radius in a unit. *)
Class Geodesy := {
  earth_mean_radius : Unit → R
}.

(** The real number a finite double stands for; none for an infinity or
    a NaN. *)
Definition float_value (f : float) : option R :=
  match f with
  | S754_zero _ => Some 0%R
  | S754_finite s m e =>
      Some (IZR (if s then Z.neg m else Z.pos m) * powerRZ 2 e)%R
  | S754_infinity _ | S754_nan => None
  end.

Definition radians (degrees : R) : R := (degrees * PI / 180)%R.

(** Modelled from the spec: the package [haversine] is not part of the
    sources. The formula of the great-circle distance, in exact
    arithmetic: with the coordinates in radians,
    [a = sin²(Δlat/2) + cos(lat1)·cos(lat2)·sin²(Δlng/2)] and
    [d = 2·R·asin(√a)]. Rounding is left out. *)
Definition great_circle (lat1 lng1 lat2 lng2 radius : R) : R :=
  (let phi1 := radians lat1 in
   let phi2 := radians lat2 in
   let dlat := phi2 - phi1 in
   let dlng := radians lng2 - radians lng1 in
   let a := Rsqr (sin (dlat / 2)) + cos phi1 * cos phi2 * Rsqr (sin (dlng / 2)) in
   2 * radius * asin (sqrt a))%R.

(** Modelled from the spec: [haversine(point1, point2, unit)] on two
    points in degrees. The distance is defined where the four
    coordinates are finite numbers. *)
Definition haversine `{Geodesy}
    (point1 point2 : option float * option float) (unit : Unit) : option R :=
  lat1 ← point1.1 ≫= float_value;
  lng1 ← point1.2 ≫= float_value;
  lat2 ← point2.1 ≫= float_value;
  lng2 ← point2.2 ≫= float_value;
  Some (great_circle lat1 lng1 lat2 lng2 (earth_mean_radius unit)).

(** [dist_from]: from the center of this zipcode to a coordinate. *)
Definition dist_from `{Geodesy} (self : AbstractSimpleZipcode)
    (to_lat to_lng : float) (unit : Unit) : option R :=
  haversine (lat self, lng self) (Some to_lat, Some to_lng) unit.

(** The usual mean radius, 6371.0088 km. *)
Definition mean_radius : Geodesy :=
  {| earth_mean_radius := λ unit,
       match unit with
       | KILOMETERS => (63710088 / 10000)%R
       | MILES => (63710088 / 10000 / (1609344 / 1000000))%R
       end |}.

(** A record at a coordinate. *)
Definition located (code : string) (la lo : float) : AbstractSimpleZipcode :=
  {| zipcode := Some (pystr code); zipcode_type := Some (pystr "STANDARD");
     major_city := None; post_office_city := None;
     common_city_list := PNone; county := None;
     state := None; lat := Some la; lng := Some lo; timezone := None;
     radius_in_miles := None; area_code_list := PNone;
     population := None;
     population_density := None; land_area_in_sqmi := None;
     water_area_in_sqmi := None; housing_units := None;
     occupied_housing_units := None; median_home_value := None;
     median_household_income := None; bounds_west := None;
     bounds_east := None; bounds_north := None; bounds_south := None |}.

(** 40.75, -74.0 and 37.75, -122.5 as doubles. *)
Definition lat_40_75 : float := S754_finite false 163 (-2).
Definition lng_m74 : float := S754_finite true 37 1.
Definition lat_37_75 : float := S754_finite false 151 (-2).
Definition lng_m122_5 : float := S754_finite true 245 (-1).

Definition at_new_york := located "10001" lat_40_75 lng_m74.
Definition at_san_francisco := located "94105" lat_37_75 lng_m122_5.

(** A serializer that writes [True] as it writes [1]. *)
Definition collide_json : JsonLib :=
  {| dumps := λ v,
       match v with
       | PBool true => Ok (PStr (pystr "1"))
       | _ => mini_dumps v
       end;
     loads := mini_loads |}.

(** * Properties *)

(** ** UTF-8 *)

(** The base-64 digits of a code point, as the encoder cuts them. *)
Lemma base64_digits (c : N) :
  ∃ d0 d1 d2 d3,
    c mod 64 = d0 ∧ (c / 64) mod 64 = d1 ∧ (c / 4096) mod 64 = d2
    ∧ c / 64 = d1 + 64 * (d2 + 64 * d3)
    ∧ c / 4096 = d2 + 64 * d3
    ∧ c / 262144 = d3
    ∧ c = d0 + 64 * (d1 + 64 * (d2 + 64 * d3))
    ∧ d0 < 64 ∧ d1 < 64 ∧ d2 < 64.
Proof.
  exists (c mod 64), ((c / 64) mod 64), ((c / 4096) mod 64), (c / 262144).
  repeat split; try (zify; Z.to_euclidean_division_equations; lia).
Qed.

(** Decide every comparison in sight and keep the arithmetic facts. *)
Ltac split_tests :=
  repeat match goal with
  | |- context [?a <? ?b] => destruct (N.ltb_spec a b); try lia
  | |- context [?a <=? ?b] => destruct (N.leb_spec a b); try lia
  end.

Ltac cut_digits c :=
  let E0 := fresh in let E1 := fresh in let E2 := fresh in
  let E3 := fresh in let E4 := fresh in let E5 := fresh in
  destruct (base64_digits c)
    as (d0 & d1 & d2 & d3 & E0 & E1 & E2 & E3 & E4 & E5 & ? & ? & ? & ?);
  rewrite ?E0, ?E1, ?E2, ?E3, ?E4, ?E5; clear E0 E1 E2 E3 E4 E5.

(** Decoding the octets of one code point gives the code point back and
    goes on with the rest. *)
Lemma utf8_decode_encode_cp (c : N) (bs rest : bytes) :
  utf8_encode_cp c = Some bs →
  utf8_decode (bs ++ rest) =
    match utf8_decode rest with
    | Ok s => Ok (c :: s)
    | Raise e => Raise e
    end.
Proof.
  unfold utf8_encode_cp.
  destruct (N.ltb_spec c 0x80).
  { intros [= <-]. cbn [app utf8_decode]. split_tests. reflexivity. }
  destruct (N.ltb_spec c 0x800).
  { intros [= <-]. cbn [app utf8_decode]. unfold is_cont. cut_digits c.
    replace ((192 + (d1 + 64 * (d2 + 64 * d3)) - 192) * 64 + (128 + d0 - 128))
      with c by lia.
    split_tests. reflexivity. }
  destruct (N.ltb_spec c 0x10000).
  { assert (utf8_decode ([0xE0 + c / 4096; 0x80 + (c / 64) mod 64;
                          0x80 + c mod 64] ++ rest)
            = match utf8_decode rest with
              | Ok s => Ok (c :: s)
              | Raise e => Raise e
              end ∨ (0xD800 ≤ c ∧ c < 0xE000)) as Hdec.
    { destruct (N.le_gt_cases 0xD800 c) as [Hlo|Hlo];
        [destruct (N.lt_ge_cases c 0xE000) as [Hhi|Hhi]; [by right|]|];
        left; cbn [app utf8_decode]; unfold is_cont; cut_digits c;
        replace ((224 + (d2 + 64 * d3) - 224) * 4096 + (128 + d1 - 128) * 64
                 + (128 + d0 - 128)) with c by lia;
        split_tests; reflexivity. }
    destruct (N.leb_spec 0xD800 c); cbn [andb].
    - destruct (N.ltb_spec c 0xE000); [discriminate|].
      intros [= <-]. destruct Hdec as [->|?]; [done|lia].
    - intros [= <-]. destruct Hdec as [->|?]; [done|lia]. }
  destruct (N.ltb_spec c 0x110000); [|discriminate].
  intros [= <-]. cbn [app utf8_decode]. unfold is_cont. cut_digits c.
  replace ((240 + d3 - 240) * 262144 + (128 + d2 - 128) * 4096
           + (128 + d1 - 128) * 64 + (128 + d0 - 128)) with c by lia.
  split_tests. reflexivity.
Qed.

(** What [encode] writes, [decode] reads back. *)
Lemma utf8_decode_encode (s : str) (bs : bytes) :
  utf8_encode s = Ok bs → utf8_decode bs = Ok s.
Proof.
  revert bs. induction s as [|c s IH]; intros bs; cbn [utf8_encode].
  - by intros [= <-].
  - destruct (utf8_encode_cp c) as [cs|] eqn:Hc; [|done].
    destruct (utf8_encode s) as [rest|] eqn:Hs; [|done].
    intros [= <-]. rewrite (utf8_decode_encode_cp c cs rest Hc).
    by rewrite (IH rest eq_refl).
Qed.

(** Every code point but a surrogate has an encoding. *)
Lemma utf8_encode_cp_scalar (c : N) :
  unicode_scalar c ↔ is_Some (utf8_encode_cp c).
Proof.
  unfold unicode_scalar, utf8_encode_cp. split.
  - intros Hc. split_tests; cbn [andb]; try (by eexists); lia.
  - intros [bs Hbs]. revert Hbs. split_tests; cbn [andb]; try done; lia.
Qed.

(** [encode] succeeds exactly on the strings free of surrogates. *)
Lemma utf8_encode_returns (s : str) :
  Forall unicode_scalar s ↔ returns (utf8_encode s).
Proof.
  induction s as [|c s IH]; cbn [utf8_encode].
  - split; [by exists []|constructor].
  - rewrite Forall_cons, IH, utf8_encode_cp_scalar. unfold returns. split.
    + intros [[cs ->] [rest ->]]. eauto.
    + destruct (utf8_encode_cp c); [|by intros [? ?]].
      destruct (utf8_encode s); [|by intros [? ?]]. eauto.
Qed.

(** ** CompressedJSONType *)

Section codec.
Import CompressedJSONType.
Context `{JsonLib} `{Zlib}.

(** What was bound reads back as [loads] of the serialized text. *)
Lemma process_result_value_bind (value : pyval) (s : str) (raw : bytes) :
  ZlibLossless →
  value ≠ PNone →
  dumps value = Ok (PStr s) →
  utf8_encode s = Ok raw →
  process_bind_param value = Ok (Some (compress raw))
  ∧ process_result_value (Some (compress raw)) = loads s.
Proof.
  intros Hz Hv Hd He. split.
  - unfold process_bind_param. destruct value; try done;
      rewrite Hd; cbn; by rewrite He.
  - unfold process_result_value. rewrite Hz. cbn.
    by rewrite (utf8_decode_encode s raw He).
Qed.

(** A value is serializable as soon as [dumps] returns a string free of
    surrogates: ASCII output, as the default [json] gives, is enough. *)
Lemma serializable_text (value : pyval) (s : str) :
  dumps value = Ok (PStr s) →
  Forall unicode_scalar s →
  serializable value.
Proof.
  intros Hd Hs. exists (PStr s). split; [done|].
  by apply utf8_encode_returns.
Qed.

(** C1. A serializable value written through [process_bind_param] and
    read through [process_result_value] comes back unchanged, for any
    serializer with [loads(dumps(value)) == value] and a lossless
    compressor: scalars, lists, dicts and [None] alike. *)
Theorem process_roundtrip (value : pyval) :
  ZlibLossless →
  serializable value →
  loads_dumps value →
  store_then_load value = Ok value.
Proof.
  intros Hz (text & Htext & raw & Hraw) (s & Hd & Hl).
  unfold store_then_load.
  assert (value = PNone ∨ value ≠ PNone) as [->|Hv]
    by (destruct value; auto; by right).
  - reflexivity.
  - rewrite Hd in Htext. injection Htext as <-. cbn in Hraw.
    destruct (process_result_value_bind value s raw Hz Hv Hd Hraw)
      as [Hb Hr].
    rewrite Hb.
    change (process_result_value (Some (compress raw)) = Ok value).
    by rewrite Hr.
Qed.

(** C6. [None] is bound as [None], without a call to the serializer or
    the compressor, and [None] is read back as [None]. *)
Theorem process_none :
  process_bind_param PNone = Ok None
  ∧ process_result_value None = Ok PNone.
Proof. by split. Qed.
End codec.

(** ** String comparison *)

Lemma str_eqb_eq (a b : str) : str_eqb a b = true ↔ a = b.
Proof.
  revert b. induction a as [|x a IH]; intros [|y b]; cbn [str_eqb];
    try (split; [done|discriminate]); [done|].
  rewrite andb_true_iff, N.eqb_eq, IH. split.
  - by intros [-> ->].
  - by intros [= -> ->].
Qed.

Lemma obj_eqb_eq (a b : option str) : obj_eqb a b = true ↔ a = b.
Proof.
  destruct a as [a|], b as [b|]; cbn [obj_eqb];
    try (split; [done|discriminate]); [|done].
  rewrite str_eqb_eq. split; [by intros ->|by intros [= ->]].
Qed.

(** The builtin comparison decides the lexicographic order. *)
Lemma str_lt_lex (a b : str) : str_lt a b = true ↔ lex_lt a b.
Proof.
  revert b. induction a as [|x a IH]; intros [|y b]; cbn [str_lt].
  - split; [done|inversion 1].
  - split; [constructor|done].
  - split; [done|inversion 1].
  - destruct (N.ltb_spec x y) as [Hxy|Hxy].
    { split; [by constructor|done]. }
    destruct (N.ltb_spec y x) as [Hyx|Hyx].
    { split; [done|]. inversion 1; subst; lia. }
    assert (x = y) as -> by lia. rewrite IH. split.
    + by constructor.
    + inversion 1; subst; [lia|done].
Qed.

Lemma lex_lt_irrefl (a : str) : ¬ lex_lt a a.
Proof.
  induction a as [|x a IH]; inversion 1; subst; [lia|done].
Qed.

Lemma lex_lt_trans (a b c : str) : lex_lt a b → lex_lt b c → lex_lt a c.
Proof.
  intros Hab. revert c. induction Hab; intros c Hbc; inversion Hbc; subst;
    try (by constructor).
  - constructor. lia.
  - constructor 3. eauto.
Qed.

Lemma lex_lt_total (a b : str) : lex_lt a b ∨ a = b ∨ lex_lt b a.
Proof.
  revert b. induction a as [|x a IH]; intros [|y b].
  - auto.
  - left. constructor.
  - right. right. constructor.
  - destruct (N.lt_trichotomy x y) as [?|[->|?]].
    + left. by constructor.
    + destruct (IH b) as [?|[->|?]]; [left|auto|right; right];
        by constructor 3.
    + right. right. by constructor.
Qed.

(** ** AbstractSimpleZipcode: identity *)

(** C2. Two records are [==] exactly when their [zipcode] is the same, and
    records with the same [zipcode] hash alike, whatever the other
    columns hold. *)
Theorem eq_hash_by_zipcode `{Builtins} (r1 r2 : AbstractSimpleZipcode) :
  (__eq__ r1 r2 = Ok true ↔ zipcode r1 = zipcode r2)
  ∧ (__eq__ r1 r2 = Ok false ↔ zipcode r1 ≠ zipcode r2)
  ∧ (zipcode r1 = zipcode r2 → __hash__ r1 = __hash__ r2).
Proof.
  unfold __eq__, __hash__. repeat split.
  - intros [= Heq]. by apply obj_eqb_eq.
  - intros Hz. f_equal. by apply obj_eqb_eq.
  - intros [= Hne] Hz. apply obj_eqb_eq in Hz. congruence.
  - intros Hne. f_equal. apply not_true_is_false.
    by rewrite obj_eqb_eq.
  - by intros ->.
Qed.

(** Same code, different city, state spelling and population. *)
Lemma eq_hash_by_zipcode_witness :
  major_city ny_10001 ≠ major_city ny_10001_stale
  ∧ __eq__ ny_10001 ny_10001_stale = Ok true
  ∧ @__hash__ toy_builtins ny_10001 = @__hash__ toy_builtins ny_10001_stale.
Proof.
  destruct (@eq_hash_by_zipcode toy_builtins ny_10001 ny_10001_stale)
    as (Heq & _ & Hhash).
  split; [discriminate|].
  split; [apply Heq; reflexivity|apply Hhash; reflexivity].
Defined.

(** ** AbstractSimpleZipcode: ordering *)

Lemma lt_unset (r1 r2 : AbstractSimpleZipcode) :
  zipcode r1 = None ∨ zipcode r2 = None → __lt__ r1 r2 = Raise ValueError.
Proof.
  unfold __lt__. intros [->| ->]; [done|]. by destruct (zipcode r1).
Qed.

(** C3, as the code has it. When either [zipcode] is unset, the four
    ordering operators [<], [<=], [>] and [>=] raise [ValueError]; [==]
    and [!=] return a boolean. *)
Theorem ordering_on_unset_raises (op : cmp_op) (r1 r2 : AbstractSimpleZipcode) :
  zipcode r1 = None ∨ zipcode r2 = None →
  (is_ordering op = true → richcompare op r1 r2 = Raise ValueError)
  ∧ (is_ordering op = false → returns (richcompare op r1 r2)).
Proof.
  intros Hz. pose proof (lt_unset r1 r2 Hz) as Hlt. split.
  - destruct op; cbn [is_ordering richcompare]; try done; intros _;
      unfold __le__, __gt__, __ge__; by rewrite Hlt.
  - destruct op; cbn [is_ordering richcompare]; try done; intros _;
      unfold __ne__, __eq__; by eexists.
Qed.

Lemma ordering_on_unset_raises_witness :
  richcompare Py_GE empty_zipcode ny_10001 = Raise ValueError
  ∧ returns (richcompare Py_NE empty_zipcode ny_10001).
Proof.
  destruct (ordering_on_unset_raises Py_GE empty_zipcode ny_10001)
    as [Hge _]; [by left|].
  destruct (ordering_on_unset_raises Py_NE empty_zipcode ny_10001)
    as [_ Hne]; [by left|].
  split; [by apply Hge|by apply Hne].
Defined.

(** C3 as stated fails: [==] between a record without [zipcode] and any
    other record returns a boolean. *)
Lemma eq_on_unset_returns :
  zipcode empty_zipcode = None
  ∧ richcompare Py_EQ empty_zipcode ny_10001 = Ok false
  ∧ richcompare Py_EQ empty_zipcode empty_zipcode = Ok true
  ∧ ¬ (∀ op r1 r2, zipcode r1 = None ∨ zipcode r2 = None →
         raises (richcompare op r1 r2)).
Proof.
  repeat split. intros Hall.
  destruct (Hall Py_EQ empty_zipcode ny_10001) as [e He]; [by left|].
  discriminate He.
Qed.

(** C7. With both [zipcode]s set, [r1 < r2] returns, and returns [True]
    exactly when the first code is lexicographically smaller. *)
Theorem lt_lexicographic (r1 r2 : AbstractSimpleZipcode) (a b : str) :
  zipcode r1 = Some a →
  zipcode r2 = Some b →
  ∃ res, __lt__ r1 r2 = Ok res ∧ (res = true ↔ lex_lt a b).
Proof.
  intros Ha Hb. unfold __lt__. rewrite Ha, Hb.
  exists (str_lt a b). split; [done|apply str_lt_lex].
Qed.

Lemma lt_lexicographic_witness :
  ∃ res, __lt__ pr_00601 ny_10001 = Ok res
         ∧ (res = true ↔ lex_lt (pystr "00601") (pystr "10001")).
Proof.
  apply (lt_lexicographic pr_00601 ny_10001); reflexivity.
Defined.

(** C9. [==] always returns: [True] for two records without [zipcode];
    [__lt__] is the method that rejects such records, and it rejects
    nothing else. *)
Theorem eq_never_raises (r1 r2 : AbstractSimpleZipcode) :
  returns (__eq__ r1 r2)
  ∧ (zipcode r1 = None → zipcode r2 = None → __eq__ r1 r2 = Ok true)
  ∧ (raises (__lt__ r1 r2) ↔ zipcode r1 = None ∨ zipcode r2 = None).
Proof.
  split; [by eexists|]. split.
  - unfold __eq__. by intros -> ->.
  - split.
    + unfold __lt__. intros [e He].
      destruct (zipcode r1); [|by left]. destruct (zipcode r2); [done|by right].
    + intros Hz. exists ValueError. by apply lt_unset.
Qed.

Lemma eq_never_raises_witness :
  __eq__ empty_zipcode empty_zipcode = Ok true
  ∧ raises (__lt__ empty_zipcode empty_zipcode).
Proof.
  destruct (eq_never_raises empty_zipcode empty_zipcode) as (_ & Heq & Hlt).
  split; [by apply Heq|apply Hlt; by left].
Defined.

(** ** AbstractSimpleZipcode: state *)

(** C8. With [state] set, [state_abbr] is its uppercase and [state_long]
    is what the table holds under that key, or [None] when the table has
    no such key. *)
Theorem state_set `{Builtins} `{StateAbbr}
    (r : AbstractSimpleZipcode) (s : str) :
  state r = Some s →
  state_abbr r = Ok (upper s)
  ∧ (∀ long, MAPPER_STATE_ABBR_SHORT_TO_LONG !! upper s = Some long →
        state_long r = Ok (Some long))
  ∧ (MAPPER_STATE_ABBR_SHORT_TO_LONG !! upper s = None →
        state_long r = Ok None).
Proof.
  intros Hs. unfold state_abbr, state_long, state_upper. rewrite Hs.
  repeat split; cbn; by intros; f_equal.
Qed.

Lemma state_set_witness :
  @state_abbr toy_builtins ny_10001 = Ok (pystr "NY")
  ∧ @state_long toy_builtins two_states ny_10001 = Ok (Some (pystr "New York"))
  ∧ @state_long toy_builtins two_states pr_00601 = Ok None.
Proof.
  destruct (@state_set toy_builtins two_states ny_10001 (pystr "ny") eq_refl)
    as (Habbr & Hlong & _).
  destruct (@state_set toy_builtins two_states pr_00601 (pystr "pr") eq_refl)
    as (_ & _ & Hnone).
  split; [exact Habbr|].
  split; [apply Hlong|apply Hnone]; by vm_compute.
Defined.

(** C10. With [state] unset, both properties raise ([None] has no
    [upper]); each returns exactly when [state] is set. *)
Theorem state_unset `{Builtins} `{StateAbbr} (r : AbstractSimpleZipcode) :
  (state r = None →
     state_abbr r = Raise AttributeError
     ∧ state_long r = Raise AttributeError)
  ∧ (returns (state_abbr r) ↔ is_Some (state r))
  ∧ (returns (state_long r) ↔ is_Some (state r)).
Proof.
  unfold state_abbr, state_long, state_upper.
  destruct (state r) as [s|]; cbn.
  - split; [done|]. split; (split; intros _; by eexists).
  - split; [done|]. split; (split; [by intros [? ?]|by intros [? ?]]).
Qed.

Lemma state_unset_witness :
  @state_abbr toy_builtins empty_zipcode = Raise AttributeError
  ∧ @state_long toy_builtins two_states empty_zipcode = Raise AttributeError.
Proof.
  apply (@state_unset toy_builtins two_states empty_zipcode). reflexivity.
Defined.

(** ** Closed examples for the column type *)

Example utf8_euro : utf8_encode [0x20AC] = Ok [0xE2; 0x82; 0xAC].
Proof. reflexivity. Qed.

Example utf8_lone_surrogate : utf8_encode [0xD800] = Raise UnicodeEncodeError.
Proof. reflexivity. Qed.

Example utf8_overlong_refused : utf8_decode [0xC0; 0x80] = Raise UnicodeDecodeError.
Proof. reflexivity. Qed.

Example bind_int :
  @CompressedJSONType.process_bind_param mini_json framed_zlib (PInt (-42))
  = Ok (Some [0x78; 0x9C; 45; 52; 50]).
Proof. reflexivity. Qed.

Example bind_list_unsupported :
  @CompressedJSONType.process_bind_param mini_json framed_zlib (PList [])
  = Raise TypeError.
Proof. reflexivity. Qed.

(** A string with one-, two-, three- and four-octet code points. *)
Lemma process_roundtrip_witness :
  let value := PStr [0x7A; 0xE9; 0x20AC; 0x1F600] in
  @ZlibLossless framed_zlib
  ∧ @CompressedJSONType.serializable mini_json value
  ∧ @CompressedJSONType.loads_dumps mini_json value
  ∧ @CompressedJSONType.store_then_load mini_json framed_zlib value = Ok value.
Proof.
  intros value.
  assert (@ZlibLossless framed_zlib) as Hz by (intros b; reflexivity).
  assert (@CompressedJSONType.serializable mini_json value) as Hs.
  { eexists. split; [reflexivity|]. eexists. vm_compute. reflexivity. }
  assert (@CompressedJSONType.loads_dumps mini_json value) as Hl.
  { eexists. split; reflexivity. }
  split; [exact Hz|]. split; [exact Hs|]. split; [exact Hl|].
  exact (@process_roundtrip mini_json framed_zlib value Hz Hs Hl).
Defined.

(** * Further properties *)

(** ** UTF-8, the other way round *)

(** What the encoder writes for one code point: one to four octets. *)
Lemma utf8_encode_cp_octets (c : N) (bs : bytes) :
  utf8_encode_cp c = Some bs →
  Forall (λ b, b < 256) bs ∧ (1 ≤ length bs ≤ 4)%nat.
Proof.
  unfold utf8_encode_cp. cut_digits c.
  split_tests; cbn [andb]; intros [= <-]; (split; [|cbn; lia]);
    repeat constructor; lia.
Qed.

Lemma utf8_encode_octets (s : str) (bs : bytes) :
  utf8_encode s = Ok bs →
  Forall (λ b, b < 256) bs
  ∧ (length s ≤ length bs ≤ 4 * length s)%nat.
Proof.
  revert bs. induction s as [|c s IH]; intros bs; cbn [utf8_encode].
  - intros [= <-]. split; [constructor|cbn; lia].
  - destruct (utf8_encode_cp c) as [cs|] eqn:Hc; [|done].
    destruct (utf8_encode s) as [rest|] eqn:Hs; [|done].
    intros [= <-]. destruct (utf8_encode_cp_octets c cs Hc) as [Hcs Hlen].
    destruct (IH rest eq_refl) as [Hrest Hlen'].
    split; [by apply Forall_app|]. rewrite length_app. cbn [length]. lia.
Qed.

(** The only error the encoder knows. *)
Lemma utf8_encode_error (s : str) (e : exn) :
  utf8_encode s = Raise e → e = UnicodeEncodeError.
Proof.
  induction s as [|c s IH]; cbn [utf8_encode]; [done|].
  destruct (utf8_encode_cp c); [|by intros [= <-]].
  destruct (utf8_encode s); [done|]. intros [= <-]. by apply IH.
Qed.

(** ASCII text is its own encoding. *)
Lemma utf8_encode_ascii (s : str) :
  Forall (λ c, c < 128) s → utf8_encode s = Ok s.
Proof.
  induction 1 as [|c s Hc _ IH]; cbn [utf8_encode]; [done|].
  unfold utf8_encode_cp. destruct (N.ltb_spec c 0x80); [|lia].
  by rewrite IH.
Qed.

Ltac euclid := zify; Z.to_euclidean_division_equations; lia.
Ltac same_octets := repeat first [done | lia | f_equal].

(** One decoding step, read backwards: the octets consumed are the
    encoding of the code point produced. *)
Lemma utf8_decode_step (bs : bytes) (s : str) :
  utf8_decode bs = Ok s →
  bs = [] ∧ s = [] ∨
  ∃ c cs rest s',
    bs = cs ++ rest ∧ s = c :: s' ∧ (length rest < length bs)%nat
    ∧ utf8_encode_cp c = Some cs ∧ utf8_decode rest = Ok s'.
Proof.
  destruct bs as [|b0 t0]; [intros [= <-]; by left|]. right.
  revert H. cbn [utf8_decode].
  destruct (N.ltb_spec b0 0x80) as [H0|H0].
  { destruct (utf8_decode t0) as [s'|] eqn:Ht; [|done]. intros [= <-].
    exists b0, [b0], t0, s'.
    split; [done|]. split; [done|]. split; [cbn; lia|]. split; [|done].
    unfold utf8_encode_cp. by destruct (N.ltb_spec b0 0x80); [|lia]. }
  destruct (N.leb_spec 0xC2 b0) as [H1|H1];
    [destruct (N.ltb_spec b0 0xE0) as [H2|H2]|]; cbn [andb].
  { destruct t0 as [|b1 t1]; [done|]. unfold is_cont.
    destruct (N.leb_spec 0x80 b1); [|done].
    destruct (N.ltb_spec b1 0xC0); [|done]. cbn [andb].
    destruct (utf8_decode t1) as [s'|] eqn:Ht; [|done]. intros [= <-].
    exists ((b0 - 192) * 64 + (b1 - 128)), [b0; b1], t1, s'.
    split; [done|]. split; [done|]. split; [cbn; lia|]. split; [|done].
    unfold utf8_encode_cp.
    assert (((b0 - 192) * 64 + (b1 - 128)) / 64 = b0 - 192) as -> by euclid.
    assert (((b0 - 192) * 64 + (b1 - 128)) mod 64 = b1 - 128) as -> by euclid.
    split_tests. same_octets. }
  { destruct (N.leb_spec 0xE0 b0) as [H3|H3]; [|lia].
    destruct (N.ltb_spec b0 0xF0) as [H4|H4]; cbn [andb].
    - destruct t0 as [|b1 [|b2 t2]]; [done..|]. unfold is_cont.
      destruct (N.leb_spec 0x80 b1); [|done].
      destruct (N.ltb_spec b1 0xC0); [|done].
      destruct (N.leb_spec 0x80 b2); [|done].
      destruct (N.ltb_spec b2 0xC0); [|done]. cbn [andb].
      set (c := (b0 - 224) * 4096 + (b1 - 128) * 64 + (b2 - 128)).
      assert (c / 4096 = b0 - 224) as Hd2 by (subst c; euclid).
      assert ((c / 64) mod 64 = b1 - 128) as Hd1 by (subst c; euclid).
      assert (c mod 64 = b2 - 128) as Hd0 by (subst c; euclid).
      assert (c < 0x10000) by (subst c; lia). clearbody c.
      destruct (N.leb_spec 0x800 c) as [Hc|Hc]; [|done]. cbn [andb].
      assert (utf8_encode_cp c = Some [b0; b1; b2]
              ∨ (0xD800 ≤ c ∧ c < 0xE000)) as [Hcs|Hsur].
      { unfold utf8_encode_cp. rewrite Hd2, Hd1, Hd0.
        destruct (N.le_gt_cases 0xD800 c);
          [destruct (N.lt_ge_cases c 0xE000); [by right|]|];
          left; split_tests; cbn [andb]; same_octets. }
      + destruct (negb _); [|done].
        destruct (utf8_decode t2) as [s'|] eqn:Ht; [|done]. intros [= <-].
        exists c, [b0; b1; b2], t2, s'.
        split; [done|]. split; [done|]. split; [cbn; lia|]. by split.
      + destruct (N.leb_spec 0xD800 c); [|lia].
        destruct (N.ltb_spec c 0xE000); [|lia]. done.
    - destruct (N.leb_spec 0xF0 b0); [|lia].
      destruct (N.ltb_spec b0 0xF5) as [H5|H5]; [|done]. cbn [andb].
      destruct t0 as [|b1 [|b2 [|b3 t3]]]; [done..|]. unfold is_cont.
      destruct (N.leb_spec 0x80 b1); [|done].
      destruct (N.ltb_spec b1 0xC0); [|done].
      destruct (N.leb_spec 0x80 b2); [|done].
      destruct (N.ltb_spec b2 0xC0); [|done].
      destruct (N.leb_spec 0x80 b3); [|done].
      destruct (N.ltb_spec b3 0xC0); [|done]. cbn [andb].
      set (c := (b0 - 240) * 262144 + (b1 - 128) * 4096
                + (b2 - 128) * 64 + (b3 - 128)).
      assert (c / 262144 = b0 - 240) as Hd3 by (subst c; euclid).
      assert ((c / 4096) mod 64 = b1 - 128) as Hd2 by (subst c; euclid).
      assert ((c / 64) mod 64 = b2 - 128) as Hd1 by (subst c; euclid).
      assert (c mod 64 = b3 - 128) as Hd0 by (subst c; euclid).
      clearbody c.
      destruct (N.leb_spec 0x10000 c) as [Hc|Hc]; [|done].
      destruct (N.ltb_spec c 0x110000) as [Hc'|Hc']; [|done]. cbn [andb].
      destruct (utf8_decode t3) as [s'|] eqn:Ht; [|done]. intros [= <-].
      exists c, [b0; b1; b2; b3], t3, s'.
      split; [done|]. split; [done|]. split; [cbn; lia|]. split; [|done].
      unfold utf8_encode_cp. rewrite Hd3, Hd2, Hd1, Hd0.
      split_tests. same_octets. }
  destruct (N.leb_spec 0xE0 b0); [lia|]. cbn [andb].
  destruct (N.leb_spec 0xF0 b0); [lia|]. done.
Qed.

(** The decoder accepts canonical encodings only: what it reads is what
    the encoder writes. *)
Lemma utf8_encode_decode (bs : bytes) (s : str) :
  utf8_decode bs = Ok s → utf8_encode s = Ok bs.
Proof.
  remember (length bs) as n eqn:Hn. revert bs s Hn.
  induction (lt_wf n) as [n _ IH]. intros bs s -> Hdec.
  destruct (utf8_decode_step bs s Hdec)
    as [[-> ->]|(c & cs & rest & s' & -> & -> & Hlen & Hc & Hrest)];
    [done|].
  cbn [utf8_encode]. rewrite Hc.
  by rewrite (IH (length rest) Hlen rest s' eq_refl Hrest).
Qed.

(** ** CompressedJSONType: what is stored, and when binding fails *)

Section codec_edges.
Import CompressedJSONType.
Context `{JsonLib} `{Zlib}.

(** Binding a value other than [None] runs the three steps in turn. *)
Lemma process_bind_param_steps (value : pyval) :
  value ≠ PNone →
  process_bind_param value =
    match dumps value with
    | Ok text =>
        match encode_utf8 text with
        | Ok raw => Ok (Some (compress raw))
        | Raise e => Raise e
        end
    | Raise e => Raise e
    end.
Proof. by destruct value. Qed.

(** A blob comes from a string that [dumps] returned and that encodes. *)
Lemma process_bind_param_blob (value : pyval) (blob : bytes) :
  process_bind_param value = Ok (Some blob) →
  ∃ s raw,
    value ≠ PNone ∧ dumps value = Ok (PStr s)
    ∧ utf8_encode s = Ok raw ∧ blob = compress raw.
Proof.
  intros Hb. assert (value ≠ PNone) as Hv by (by intros ->).
  rewrite (process_bind_param_steps value Hv) in Hb.
  destruct (dumps value) as [text|]; [|done].
  destruct text as [| | | |s| | |]; try done. cbn in Hb.
  destruct (utf8_encode s) as [raw|] eqn:Hs; [|done].
  injection Hb as <-. by exists s, raw.
Qed.

(** X1. [NULL] is stored for [None] and for nothing else: any other
    value is bound to a blob or raises. *)
Theorem bind_null_only (value : pyval) :
  process_bind_param value = Ok None ↔ value = PNone.
Proof.
  split; [|by intros ->]. intros Hb.
  destruct value; try done;
    rewrite process_bind_param_steps in Hb by done;
    destruct (dumps _); try done;
    destruct (encode_utf8 _); done.
Qed.

(** X2. A serializer whose [dumps] returns anything but a [str] makes
    binding raise [AttributeError], and an exception of [dumps] comes
    out of [process_bind_param] unchanged. *)
Theorem bind_needs_str (value : pyval) :
  value ≠ PNone →
  (∀ text, dumps value = Ok text → (∀ s, text ≠ PStr s) →
     process_bind_param value = Raise AttributeError)
  ∧ (∀ e, dumps value = Raise e → process_bind_param value = Raise e).
Proof.
  intros Hv. rewrite (process_bind_param_steps value Hv). split.
  - intros text -> Hns. destruct text; try done. by destruct (Hns s).
  - by intros e ->.
Qed.

(** X3. When [dumps] returns a string, binding succeeds exactly when the
    string is free of surrogates, and raises [UnicodeEncodeError]
    otherwise. *)
Theorem bind_surrogates (value : pyval) (s : str) :
  value ≠ PNone →
  dumps value = Ok (PStr s) →
  (returns (process_bind_param value) ↔ Forall unicode_scalar s)
  ∧ (process_bind_param value = Raise UnicodeEncodeError
     ↔ ¬ Forall unicode_scalar s).
Proof.
  intros Hv Hd. rewrite (process_bind_param_steps value Hv), Hd.
  cbn [encode_utf8]. rewrite utf8_encode_returns.
  destruct (utf8_encode s) as [raw|e] eqn:Hs.
  - split; split; try done.
    + intros _. by exists raw.
    + intros _. by eexists.
    + intros Hn. destruct Hn. by exists raw.
  - rewrite (utf8_encode_error s e Hs). split; split; try done.
    + by intros [? ?].
    + by intros [? ?].
    + by intros _ [? ?].
Qed.

(** X6. The payload of a blob: octets below 256, at least one and at most
    four per code point of the serialized text, and decoding them gives
    that text back. *)
Theorem bind_payload (value : pyval) (blob : bytes) :
  process_bind_param value = Ok (Some blob) →
  ∃ s raw,
    dumps value = Ok (PStr s) ∧ blob = compress raw
    ∧ utf8_decode raw = Ok s
    ∧ Forall (λ b, b < 256) raw
    ∧ (length s ≤ length raw ≤ 4 * length s)%nat.
Proof.
  intros Hb.
  destruct (process_bind_param_blob value blob Hb)
    as (s & raw & _ & Hd & Hs & ->).
  destruct (utf8_encode_octets s raw Hs) as [Hoct Hlen].
  exists s, raw. repeat split; try done; try lia.
  by apply utf8_decode_encode.
Qed.

(** X7. ASCII text, which is what the default serializer writes, is
    compressed as it is: one octet per character. *)
Theorem bind_ascii (value : pyval) (s : str) :
  value ≠ PNone →
  dumps value = Ok (PStr s) →
  Forall (λ c, c < 128) s →
  process_bind_param value = Ok (Some (compress s)).
Proof.
  intros Hv Hd Hs. rewrite (process_bind_param_steps value Hv), Hd.
  cbn [encode_utf8]. by rewrite (utf8_encode_ascii s Hs).
Qed.

(** X5. With a lossless compressor, two values bound to the same blob
    were serialized to the same text, so a comparison on the stored
    column never matches a value with another serialization; with
    [loads(dumps(v)) == v] for both, they are the same value. *)
Theorem bind_injective (v1 v2 : pyval) (blob : bytes) :
  ZlibLossless →
  process_bind_param v1 = Ok (Some blob) →
  process_bind_param v2 = Ok (Some blob) →
  dumps v1 = dumps v2
  ∧ (loads_dumps v1 → loads_dumps v2 → v1 = v2).
Proof.
  intros Hz H1 H2.
  destruct (process_bind_param_blob v1 blob H1)
    as (s1 & raw1 & _ & Hd1 & Hs1 & Hb1).
  destruct (process_bind_param_blob v2 blob H2)
    as (s2 & raw2 & _ & Hd2 & Hs2 & Hb2).
  assert (raw1 = raw2) as <-.
  { assert (Ok raw1 = Ok raw2) as [= ->]; [|done].
    rewrite <- (Hz raw1), <- (Hz raw2). congruence. }
  assert (s1 = s2) as <-.
  { apply utf8_decode_encode in Hs1, Hs2. congruence. }
  split; [congruence|].
  intros (t1 & Ht1 & Hl1) (t2 & Ht2 & Hl2). congruence.
Qed.

(** X8. A blob that reads back carries the canonical UTF-8 encoding of
    the text handed to [loads]: overlong forms, surrogates and truncated
    sequences never reach the serializer. *)
Theorem result_value_canonical (blob : bytes) (value : pyval) :
  process_result_value (Some blob) = Ok value →
  ∃ raw s,
    decompress blob = Ok raw ∧ utf8_encode s = Ok raw
    ∧ Forall unicode_scalar s ∧ loads s = Ok value.
Proof.
  unfold process_result_value.
  destruct (decompress blob) as [raw|] eqn:Hraw; [|done]. cbn.
  destruct (utf8_decode raw) as [s|] eqn:Hs; [|done]. cbn. intros Hl.
  exists raw, s. pose proof (utf8_encode_decode raw s Hs) as He.
  repeat split; try done. apply utf8_encode_returns. by exists raw.
Qed.
End codec_edges.

(** X4. The reader's [loads] receives exactly the text the writer's
    [dumps] returned, whichever serializers the two sides use: the column
    adds nothing of its own and does not detect a mismatch. *)
Theorem reader_gets_writer_text (writer reader : JsonLib) `{Zlib}
    (value : pyval) (s : str) :
  ZlibLossless →
  value ≠ PNone →
  @dumps writer value = Ok (PStr s) →
  Forall unicode_scalar s →
  ∃ blob,
    @CompressedJSONType.process_bind_param writer _ value = Ok (Some blob)
    ∧ @CompressedJSONType.process_result_value reader _ (Some blob)
      = @loads reader s.
Proof.
  intros Hz Hv Hd Hs.
  destruct (proj1 (utf8_encode_returns s) Hs) as [raw Hraw].
  exists (compress raw). split.
  - rewrite (@process_bind_param_steps writer _ value Hv), Hd.
    cbn [encode_utf8]. by rewrite Hraw.
  - unfold CompressedJSONType.process_result_value. rewrite Hz. cbn.
    by rewrite (utf8_decode_encode s raw Hraw).
Qed.

(** X9. [__init__] never hands the keyword [json_lib] to the base class,
    hands every other keyword and the positional arguments over
    unchanged, and keeps the given serializer, or [json] when none was
    given. *)
Theorem init_pops_json_lib {Obj : Type} (json : Obj)
    (args : list Obj) (kwargs : gmap (list N) Obj) :
  let '(lib, (args', kwargs')) := CompressedJSONType.__init__ json args kwargs in
  lib = default json (kwargs !! CompressedJSONType._JSON_LIB)
  ∧ args' = args
  ∧ kwargs' !! CompressedJSONType._JSON_LIB = None
  ∧ (∀ k, k ≠ CompressedJSONType._JSON_LIB → kwargs' !! k = kwargs !! k).
Proof.
  unfold CompressedJSONType.__init__.
  destruct (kwargs !! CompressedJSONType._JSON_LIB) as [lib|] eqn:Hk; cbn.
  - repeat split; [apply lookup_delete_eq|].
    intros k Hne. by apply lookup_delete_ne.
  - by repeat split.
Qed.

(** ** AbstractSimpleZipcode: the comparison protocol as a whole *)

(** Of [a < b], [a == b] and [b < a] on strings, exactly one holds. *)
Lemma str_compare_cases (a b : str) :
  (str_lt a b = true ∧ str_eqb a b = false ∧ str_lt b a = false)
  ∨ (str_lt a b = false ∧ str_eqb a b = true ∧ str_lt b a = false)
  ∨ (str_lt a b = false ∧ str_eqb a b = false ∧ str_lt b a = true).
Proof.
  destruct (str_lt a b) eqn:Hab, (str_eqb a b) eqn:He,
    (str_lt b a) eqn:Hba; auto;
    rewrite ?str_lt_lex, ?str_eqb_eq in *; exfalso.
  - subst. by apply (lex_lt_irrefl b).
  - subst. by apply (lex_lt_irrefl b).
  - apply (lex_lt_irrefl a). by apply (lex_lt_trans a b a).
  - subst. by apply (lex_lt_irrefl b).
  - destruct (lex_lt_total a b) as [Hl|[Hl|Hl]].
    + apply str_lt_lex in Hl. congruence.
    + apply str_eqb_eq in Hl. congruence.
    + apply str_lt_lex in Hl. congruence.
Qed.

Lemma lt_returns (r1 r2 : AbstractSimpleZipcode) (res : bool) :
  __lt__ r1 r2 = Ok res →
  ∃ a b, zipcode r1 = Some a ∧ zipcode r2 = Some b ∧ res = str_lt a b.
Proof.
  unfold __lt__. destruct (zipcode r1) as [a|]; [|done].
  destruct (zipcode r2) as [b|]; [|done]. intros [= <-]. by exists a, b.
Qed.

(** X10. [==] is an equivalence on records, the ones without [zipcode]
    included: reflexive, symmetric and transitive. *)
Theorem eq_equivalence (r1 r2 r3 : AbstractSimpleZipcode) :
  __eq__ r1 r1 = Ok true
  ∧ __eq__ r1 r2 = __eq__ r2 r1
  ∧ (__eq__ r1 r2 = Ok true → __eq__ r2 r3 = Ok true →
     __eq__ r1 r3 = Ok true).
Proof.
  unfold __eq__. split; [|split].
  - f_equal. by apply obj_eqb_eq.
  - f_equal. destruct (obj_eqb (zipcode r2) (zipcode r1)) eqn:E.
    + apply obj_eqb_eq. by apply obj_eqb_eq in E.
    + apply not_true_is_false. rewrite obj_eqb_eq. intros Heq.
      symmetry in Heq. apply obj_eqb_eq in Heq. congruence.
  - intros [= H12] [= H23]. f_equal.
    apply obj_eqb_eq in H12, H23. apply obj_eqb_eq. congruence.
Qed.

(** X11. [<] is a strict order where it returns: never [r < r], never
    both [r1 < r2] and [r2 < r1], and transitive. *)
Theorem lt_strict_order (r1 r2 r3 : AbstractSimpleZipcode) :
  __lt__ r1 r1 ≠ Ok true
  ∧ (__lt__ r1 r2 = Ok true → __lt__ r2 r1 = Ok false)
  ∧ (__lt__ r1 r2 = Ok true → __lt__ r2 r3 = Ok true →
     __lt__ r1 r3 = Ok true).
Proof.
  split; [|split].
  - intros Hlt. destruct (lt_returns _ _ _ Hlt) as (a & b & Ha & Hb & Hr).
    assert (a = b) as -> by congruence.
    symmetry in Hr. apply str_lt_lex in Hr. by apply (lex_lt_irrefl b).
  - intros Hlt. destruct (lt_returns _ _ _ Hlt) as (a & b & Ha & Hb & Hr).
    unfold __lt__. rewrite Ha, Hb. f_equal.
    destruct (str_compare_cases a b) as [(_ & _ & ?)|[(? & _)|(? & _)]];
      congruence.
  - intros H12 H23.
    destruct (lt_returns _ _ _ H12) as (a & b & Ha & Hb & Hab).
    destruct (lt_returns _ _ _ H23) as (b' & c & Hb' & Hc & Hbc).
    assert (b' = b) as -> by congruence.
    unfold __lt__. rewrite Ha, Hc. f_equal.
    symmetry in Hab, Hbc. apply str_lt_lex in Hab, Hbc.
    apply str_lt_lex. by apply (lex_lt_trans a b c).
Qed.

Lemma gt_swapped_lt_aux (r1 r2 : AbstractSimpleZipcode) :
  __gt__ r1 r2 = __lt__ r2 r1.
Proof.
  unfold __gt__, __ne__, __eq__, __lt__.
  destruct (zipcode r1) as [a|], (zipcode r2) as [b|]; try done. cbn.
  destruct (str_compare_cases a b) as [(E1 & E2 & E3)|[(E1 & E2 & E3)|(E1 & E2 & E3)]];
    by rewrite ?E1, ?E2, ?E3.
Qed.

(** X12. The derived [>] is [<] with the operands swapped, in result and
    in error: [r1 > r2] does what [r2 < r1] does. *)
Theorem gt_is_swapped_lt (r1 r2 : AbstractSimpleZipcode) :
  __gt__ r1 r2 = __lt__ r2 r1.
Proof. apply gt_swapped_lt_aux. Qed.

(** X13. The derived [>=] is the derived [<=] with the operands swapped,
    in result and in error. *)
Theorem ge_is_swapped_le (r1 r2 : AbstractSimpleZipcode) :
  __ge__ r1 r2 = __le__ r2 r1.
Proof.
  unfold __ge__, __le__, __eq__, __lt__.
  destruct (zipcode r1) as [a|], (zipcode r2) as [b|]; try done. cbn.
  destruct (str_compare_cases b a) as [(E1 & E2 & E3)|[(E1 & E2 & E3)|(E1 & E2 & E3)]];
    by rewrite ?E1, ?E2, ?E3.
Qed.

(** X14. Between two records with [zipcode] set, exactly one of [<], [==]
    and [>] is [True]. *)
Theorem compare_trichotomy (r1 r2 : AbstractSimpleZipcode) :
  __bool__ r1 = true →
  __bool__ r2 = true →
  (__lt__ r1 r2 = Ok true ∧ __eq__ r1 r2 = Ok false ∧ __gt__ r1 r2 = Ok false)
  ∨ (__lt__ r1 r2 = Ok false ∧ __eq__ r1 r2 = Ok true ∧ __gt__ r1 r2 = Ok false)
  ∨ (__lt__ r1 r2 = Ok false ∧ __eq__ r1 r2 = Ok false ∧ __gt__ r1 r2 = Ok true).
Proof.
  rewrite (gt_swapped_lt_aux r1 r2). unfold __bool__, __eq__, __lt__.
  destruct (zipcode r1) as [a|], (zipcode r2) as [b|]; try done. intros _ _.
  cbn [obj_eqb].
  destruct (str_compare_cases a b) as [(E1 & E2 & E3)|[(E1 & E2 & E3)|(E1 & E2 & E3)]];
    rewrite ?E1, ?E2, ?E3; auto.
Qed.

(** X15. A comparison returns exactly when it is [==] or [!=], or both
    records are truthy ([__bool__]): ordering is defined between present
    records and nowhere else. *)
Theorem compare_returns_iff (op : cmp_op) (r1 r2 : AbstractSimpleZipcode) :
  returns (richcompare op r1 r2)
  ↔ is_ordering op = false ∨ (__bool__ r1 = true ∧ __bool__ r2 = true).
Proof.
  unfold __bool__.
  destruct op; cbn [richcompare is_ordering];
    unfold __le__, __gt__, __ge__, __ne__, __eq__, __lt__;
    destruct (zipcode r1) as [a|], (zipcode r2) as [b|]; cbn;
    try destruct (str_lt a b); cbn;
    (split; [intros [res Hres]; try done; auto
            |intros [?|[? ?]]; try done; by eexists]).
Qed.

(** X16. Records whose [state] has the same uppercase have the same
    [state_long], and [state_long] returns a name only when the table
    holds it under [state_abbr]. *)
Theorem state_long_by_abbr `{Builtins} `{StateAbbr}
    (r1 r2 : AbstractSimpleZipcode) :
  (state_abbr r1 = state_abbr r2 → state_long r1 = state_long r2)
  ∧ (∀ long, state_long r1 = Ok (Some long) →
       ∃ abbr, state_abbr r1 = Ok abbr
               ∧ MAPPER_STATE_ABBR_SHORT_TO_LONG !! abbr = Some long).
Proof.
  unfold state_long, state_abbr. split.
  - by intros ->.
  - intros long. destruct (state_upper r1) as [abbr|]; [|done]. cbn.
    intros [= Hl]. by exists abbr.
Qed.

(** ** Closed instances of the further properties *)

(** A serializer that returns [bytes] cannot be plugged in. *)
Lemma bind_needs_str_witness :
  @CompressedJSONType.process_bind_param bytes_json framed_zlib (PInt 7)
  = Raise AttributeError.
Proof.
  destruct (@bind_needs_str bytes_json framed_zlib (PInt 7)) as [Hb _];
    [discriminate|].
  apply (Hb (PBytes [55])); [reflexivity|discriminate].
Defined.

(** A lone surrogate goes through [mini_json] and stops at the encoder. *)
Lemma bind_surrogates_witness :
  @CompressedJSONType.process_bind_param mini_json framed_zlib (PStr [0xD800])
  = Raise UnicodeEncodeError.
Proof.
  destruct (@bind_surrogates mini_json framed_zlib (PStr [0xD800])
              [quote; 0xD800; quote]) as [_ Hs];
    [discriminate|reflexivity|].
  apply Hs. intros Hall. apply Forall_cons in Hall as [_ Hall].
  apply Forall_cons in Hall as [[Hlo|[Hhi _]] _]; lia.
Defined.

Lemma bind_payload_witness :
  ∃ s raw,
    @dumps mini_json (PStr [0x20AC]) = Ok (PStr s)
    ∧ [0x78; 0x9C; 34; 0xE2; 0x82; 0xAC; 34] = @compress framed_zlib raw
    ∧ utf8_decode raw = Ok s
    ∧ Forall (λ b, b < 256) raw
    ∧ (length s ≤ length raw ≤ 4 * length s)%nat.
Proof.
  apply (@bind_payload mini_json framed_zlib (PStr [0x20AC])). reflexivity.
Defined.

Lemma bind_ascii_witness :
  @CompressedJSONType.process_bind_param mini_json framed_zlib (PInt (-42))
  = Ok (Some (@compress framed_zlib (pystr "-42"))).
Proof.
  apply (@bind_ascii mini_json framed_zlib (PInt (-42)) (pystr "-42"));
    [discriminate|reflexivity|].
  repeat constructor.
Defined.

(** [collide_json] binds [True] and [1] to one blob: their text is the
    same, and the serializer cannot read both back. *)
Lemma bind_injective_witness :
  @CompressedJSONType.process_bind_param collide_json framed_zlib (PBool true)
  = @CompressedJSONType.process_bind_param collide_json framed_zlib (PInt 1)
  ∧ @dumps collide_json (PBool true) = @dumps collide_json (PInt 1)
  ∧ (@CompressedJSONType.loads_dumps collide_json (PBool true) →
     @CompressedJSONType.loads_dumps collide_json (PInt 1) →
     PBool true = PInt 1).
Proof.
  split; [reflexivity|].
  apply (@bind_injective collide_json framed_zlib (PBool true) (PInt 1)
           [0x78; 0x9C; 49]);
    [intros b; reflexivity|reflexivity|reflexivity].
Defined.

(** The law [loads(dumps(v)) == v] fails for [True] there: it reads back
    as [1]. *)
Example collide_json_reads_int :
  @CompressedJSONType.store_then_load collide_json framed_zlib (PBool true)
  = Ok (PInt 1)
  ∧ ¬ @CompressedJSONType.loads_dumps collide_json (PBool true).
Proof.
  split; [reflexivity|]. intros (s & Hd & Hl).
  injection Hd as <-. discriminate Hl.
Qed.

Lemma result_value_canonical_witness :
  ∃ raw s,
    @decompress framed_zlib [0x78; 0x9C; 52; 50] = Ok raw
    ∧ utf8_encode s = Ok raw
    ∧ Forall unicode_scalar s ∧ @loads mini_json s = Ok (PInt 42).
Proof.
  apply (@result_value_canonical mini_json framed_zlib). reflexivity.
Defined.

(** Written by [mini_json], read by [text_lib]: the reader returns the
    JSON text, not the integer, and nothing is raised. *)
Lemma reader_gets_writer_text_witness :
  ∃ blob,
    @CompressedJSONType.process_bind_param mini_json framed_zlib (PInt 7)
    = Ok (Some blob)
    ∧ @CompressedJSONType.process_result_value text_lib framed_zlib (Some blob)
      = Ok (PStr (pystr "7")).
Proof.
  apply (@reader_gets_writer_text mini_json text_lib framed_zlib
           (PInt 7) (pystr "7"));
    [intros b; reflexivity|discriminate|reflexivity|].
  repeat constructor.
Defined.

Lemma eq_equivalence_witness :
  __eq__ empty_zipcode empty_zipcode = Ok true
  ∧ __eq__ ny_10001 ny_10001_stale = __eq__ ny_10001_stale ny_10001
  ∧ __eq__ ny_10001 ny_10001 = Ok true.
Proof.
  destruct (eq_equivalence empty_zipcode empty_zipcode empty_zipcode)
    as (Hrefl & _ & _).
  destruct (eq_equivalence ny_10001 ny_10001_stale ny_10001)
    as (_ & Hsym & Htrans).
  split; [exact Hrefl|]. split; [exact Hsym|].
  apply Htrans; reflexivity.
Defined.

Lemma lt_strict_order_witness :
  __lt__ ny_10001 pr_00601 = Ok false
  ∧ __lt__ pr_00601 ca_94105 = Ok true.
Proof.
  destruct (lt_strict_order pr_00601 ny_10001 ca_94105)
    as (_ & Hasym & Htrans).
  split; [apply Hasym; reflexivity|apply Htrans; reflexivity].
Defined.

Lemma compare_trichotomy_witness :
  (__lt__ pr_00601 ny_10001 = Ok true
   ∧ __eq__ pr_00601 ny_10001 = Ok false
   ∧ __gt__ pr_00601 ny_10001 = Ok false)
  ∨ (__lt__ pr_00601 ny_10001 = Ok false
     ∧ __eq__ pr_00601 ny_10001 = Ok true
     ∧ __gt__ pr_00601 ny_10001 = Ok false)
  ∨ (__lt__ pr_00601 ny_10001 = Ok false
     ∧ __eq__ pr_00601 ny_10001 = Ok false
     ∧ __gt__ pr_00601 ny_10001 = Ok true).
Proof.
  apply (compare_trichotomy pr_00601 ny_10001); reflexivity.
Defined.

(** ["ny"] and ["NY"] name the same state. *)
Lemma state_long_by_abbr_witness :
  @state_long toy_builtins two_states ny_10001
  = @state_long toy_builtins two_states ny_10001_stale.
Proof.
  apply (@state_long_by_abbr toy_builtins two_states ny_10001 ny_10001_stale).
  reflexivity.
Defined.

(** A serializer given by keyword, next to a keyword of the base class. *)
Example init_with_json_lib :
  CompressedJSONType.__init__ (PStr (pystr "json")) []
    (<[CompressedJSONType._JSON_LIB := PStr (pystr "jsonpickle")]>
       (<[pystr "length" := PInt 64]> ∅))
  = (PStr (pystr "jsonpickle"), ([], <[pystr "length" := PInt 64]> ∅)).
Proof. by vm_compute. Qed.

(** ** Distance *)

(** The formula does not tell its two points apart. *)
Lemma great_circle_sym (lat1 lng1 lat2 lng2 radius : R) :
  great_circle lat1 lng1 lat2 lng2 radius
  = great_circle lat2 lng2 lat1 lng1 radius.
Proof.
  unfold great_circle. cbv zeta. do 3 f_equal.
  replace ((radians lat1 - radians lat2) / 2)%R
    with (- ((radians lat2 - radians lat1) / 2))%R by lra.
  replace ((radians lng1 - radians lng2) / 2)%R
    with (- ((radians lng2 - radians lng1) / 2))%R by lra.
  rewrite !sin_neg, <- !Rsqr_neg. ring.
Qed.

(** A point is at distance 0 from itself. *)
Lemma great_circle_self (lt lg radius : R) :
  great_circle lt lg lt lg radius = 0%R.
Proof.
  unfold great_circle. cbv zeta.
  replace ((radians lt - radians lt) / 2)%R with 0%R by lra.
  replace ((radians lg - radians lg) / 2)%R with 0%R by lra.
  rewrite sin_0, Rsqr_0, Rmult_0_r, Rplus_0_r, sqrt_0, asin_0. ring.
Qed.

(** C5. In exact arithmetic, the distance from a record at [A] to the
    point [B] is the distance from a record at [B] to the point [A], and
    the distance from a record to its own coordinates is 0; the distance
    is defined whenever the four coordinates are finite numbers. Equal
    values are within every tolerance of each other. *)
Theorem dist_from_symmetric `{Geodesy} (rA rB : AbstractSimpleZipcode)
    (latA lngA latB lngB : float) (unit : Unit) :
  lat rA = Some latA → lng rA = Some lngA →
  lat rB = Some latB → lng rB = Some lngB →
  dist_from rA latB lngB unit = dist_from rB latA lngA unit
  ∧ (is_Some (float_value latA) → is_Some (float_value lngA) →
     dist_from rA latA lngA unit = Some 0%R)
  ∧ (is_Some (float_value latA) → is_Some (float_value lngA) →
     is_Some (float_value latB) → is_Some (float_value lngB) →
     is_Some (dist_from rA latB lngB unit)).
Proof.
  intros HlatA HlngA HlatB HlngB. unfold dist_from, haversine.
  rewrite HlatA, HlngA, HlatB, HlngB. cbn.
  destruct (float_value latA) as [a1|], (float_value lngA) as [a2|],
    (float_value latB) as [b1|], (float_value lngB) as [b2|]; cbn;
    (split; [|split]); try done;
    try (by intros [? ?]); try (by intros _ [? ?]);
    try (by intros _ _ [? ?]); try (by intros _ _ _ [? ?]).
  - f_equal. apply great_circle_sym.
  - intros _ _. f_equal. apply great_circle_self.
  - intros _ _. f_equal. apply great_circle_self.
  - intros _ _. f_equal. apply great_circle_self.
  - intros _ _. f_equal. apply great_circle_self.
Qed.

(** New York and San Francisco, either way round, in miles. *)
Lemma dist_from_symmetric_witness :
  @dist_from mean_radius at_new_york lat_37_75 lng_m122_5 MILES
  = @dist_from mean_radius at_san_francisco lat_40_75 lng_m74 MILES
  ∧ @dist_from mean_radius at_new_york lat_40_75 lng_m74 MILES = Some 0%R
  ∧ is_Some (@dist_from mean_radius at_new_york lat_37_75 lng_m122_5 MILES).
Proof.
  destruct (@dist_from_symmetric mean_radius at_new_york at_san_francisco
              lat_40_75 lng_m74 lat_37_75 lng_m122_5 MILES
              eq_refl eq_refl eq_refl eq_refl) as (Hsym & Hzero & Hdef).
  split; [exact Hsym|].
  split; [apply Hzero; by eexists|apply Hdef; by eexists].
Defined.
